(** * Error normalisation and dispatch layer of the Saleor storefront SDK

    A shallow embedding of [src/index.ts]: the error normaliser
    [handleDataErrors], the promise plumbing [firePromise] / [fireQuery],
    the sign-in orchestration [signIn], the auth listeners and the
    watched-query wrapper [watchQuery] with its [refetch] handle.

    The helpers imported from [./utils], [./auth] and [./mutations] are not
    part of the sources at hand; they are modelled from the specification
    and marked as such.  The specification describes the emptiness test of
    [./utils] in two ways that differ on a result wrapper holding nothing
    but errors; [Utils] reads it to the letter, [Wrappers] through the
    wrappers, and [Parametric] gives the dispatch layer over any
    implementation of the helpers. *)

From Stdlib Require Import String List Bool ZArith Lia.
Import ListNotations.
Open Scope string_scope.
Open Scope list_scope.

Set Warnings "-register-all".

(* ===================================================================== *)
(** * JavaScript values *)
(* ===================================================================== *)

(** The payloads handled by the client are JSON documents.  Objects are
    association lists: [Object.keys] order matters when a payload is
    scanned.  Numbers are integers here, no claim depends on fractions. *)
Inductive JValue : Type :=
| JUndefined
| JNull
| JBool (b : bool)
| JNum (n : Z)
| JStr (s : string)
| JArr (items : list JValue)
| JObj (fields : list (string * JValue)).

(** ECMAScript [ToBoolean]: what [if (v)], [!v] and [a || b] look at.
    Arrays and objects are truthy, the empty array included. *)
Definition truthy (v : JValue) : bool :=
  match v with
  | JUndefined | JNull => false
  | JBool b => b
  | JNum n => negb (Z.eqb n 0)
  | JStr s => negb (String.eqb s EmptyString)
  | JArr _ | JObj _ => true
  end.

(** [v == null]: the value is [null] or [undefined]. *)
Definition nullish (v : JValue) : bool :=
  match v with
  | JUndefined | JNull => true
  | _ => false
  end.

Fixpoint lookup (key : string) (fields : list (string * JValue)) : JValue :=
  match fields with
  | [] => JUndefined
  | (k, v) :: rest => if String.eqb k key then v else lookup key rest
  end.

(** Property read [v.key], guarded.  On an object it is the field,
    [undefined] when the field is missing.  On [null] and [undefined] the
    unguarded reads of [src/index.ts] ([data.product], [data!.tokenCreate])
    raise a TypeError; the specification asks projections to tolerate an
    absent payload (4.3, edge case), and [prop] is the read with that guard:
    it gives [undefined] there.  The statements below apply it to object
    payloads only, or leave the projection arbitrary. *)
Definition prop (key : string) (v : JValue) : JValue :=
  match v with
  | JObj fields => lookup key fields
  | _ => JUndefined
  end.

(** Direct child values of a payload. *)
Definition children (v : JValue) : list JValue :=
  match v with
  | JObj fields => map snd fields
  | JArr items => items
  | _ => []
  end.

Definition nonEmptyArray (v : JValue) : bool :=
  match v with
  | JArr (_ :: _) => true
  | _ => false
  end.

(** A transport-level error entry ([GraphQLError] of the graphql package). *)
Record GraphQLError : Type := { message : string }.

(** The two constructor arguments [handleDataErrors] passes to
    [new ApolloError({ extraInfo, graphQLErrors })]. *)
Record ApolloError : Type := {
  extraInfo : JValue;
  graphQLErrors : option (list GraphQLError)
}.

(** [MapFn] / [WatchMapFn]: the caller-supplied projection. *)
Definition MapFn : Type := JValue -> JValue.

(* ===================================================================== *)
(** * Helpers of [./utils] *)
(* ===================================================================== *)

Module Utils.

(** Modelled from the spec: [getErrorsFromData] of [./utils] is not among
    the sources.  Specification 4.3, step 1: scan the data for embedded
    domain errors, searching the result-wrapper fields recursively for an
    [errors] field that holds a non-empty list.  The list found first (in
    key order, depth first) is returned, [null] when there is none. *)
Fixpoint getErrorsFromData (data : JValue) : JValue :=
  match data with
  | JObj fields =>
      (fix scan (fs : list (string * JValue)) : JValue :=
         match fs with
         | [] => JNull
         | (key, value) :: rest =>
             if String.eqb key "errors" && nonEmptyArray value then value
             else if truthy (getErrorsFromData value)
                  then getErrorsFromData value
                  else scan rest
         end) fields
  | _ => JNull
  end.

(** Modelled from the spec: [isDataEmpty] of [./utils] is not among the
    sources.  Specification 4.3, step 3: data is empty when the root data
    value is null, or all of its direct child fields resolve to null. *)
Definition isDataEmpty (data : JValue) : bool :=
  nullish data || forallb nullish (children data).

(** Modelled from the spec: [getMappedData] of [./utils] is not among the
    sources.  Specification 4.3, step 4 and testable property 2: the
    projection is applied to the raw payload, [projected = mapFn(data)];
    tolerating an absent payload is the projection's duty. *)
Definition getMappedData (mapFn : MapFn) (data : JValue) : JValue :=
  mapFn data.

End Utils.
Import Utils.

(* ===================================================================== *)
(** * The error normaliser *)
(* ===================================================================== *)

(** The object literal returned by [handleDataErrors]: [{ errors }] or
    [{ data: result }]. *)
Inductive Outcome : Type :=
| WithErrors (errors : ApolloError)
| WithData (result : JValue).

(** [outcome.errors]: [undefined] on a data outcome. *)
Definition outcomeErrors (o : Outcome) : option ApolloError :=
  match o with
  | WithErrors errors => Some errors
  | WithData _ => None
  end.

(** [outcome.data]: [undefined] on an error outcome. *)
Definition outcomeData (o : Outcome) : JValue :=
  match o with
  | WithErrors _ => JUndefined
  | WithData result => result
  end.

Definition isSome {A : Type} (o : option A) : bool :=
  match o with
  | Some _ => true
  | None => false
  end.

(** The [errors] constant of [handleDataErrors]:
    [apolloErrors || userInputErrors ? new ApolloError({...}) : null].
    An array is truthy whatever its length, so [apolloErrors] counts as
    soon as it is present. *)
Definition constructedErrors (data : JValue)
    (apolloErrors : option (list GraphQLError)) : option ApolloError :=
  let userInputErrors := getErrorsFromData data in
  if isSome apolloErrors || truthy userInputErrors
  then Some {| extraInfo := userInputErrors; graphQLErrors := apolloErrors |}
  else None.

Definition handleDataErrors (mapFn : MapFn) (data : JValue)
    (apolloErrors : option (list GraphQLError)) : Outcome :=
  match constructedErrors data apolloErrors with
  | Some errors =>
      if isDataEmpty data then WithErrors errors
      else WithData (getMappedData mapFn data)
  | None => WithData (getMappedData mapFn data)
  end.

(** The premises of the normaliser properties, in the specification's
    words. *)

(** Every direct child field of the payload is null. *)
Definition allChildrenNull (data : JValue) : Prop :=
  exists fields, data = JObj fields /\ Forall (fun kv => snd kv = JNull) fields.

(** The transport-error list is present and has at least one entry. *)
Definition transportErrorsNonEmpty (apolloErrors : option (list GraphQLError)) : Prop :=
  exists e rest, apolloErrors = Some (e :: rest).

(** The raw result carries zero transport errors: the list is absent or
    present and empty. *)
Definition noTransportErrors (apolloErrors : option (list GraphQLError)) : Prop :=
  apolloErrors = None \/ apolloErrors = Some [].

(** A non-empty embedded domain-error list is found in the data. *)
Definition domainErrorsFound (data : JValue) : Prop :=
  truthy (getErrorsFromData data) = true.

(** No embedded domain-error list is found in the data. *)
Definition noDomainErrors (data : JValue) : Prop :=
  getErrorsFromData data = JNull.

(* ===================================================================== *)
(** * Effects: token store, credential manager, callbacks *)
(* ===================================================================== *)

(** What the transport pipeline hands back: [{ data, errors? }]. *)
Record RawResult : Type := {
  resultData : JValue;
  resultErrors : option (list GraphQLError)
}.

(** A value thrown, or a promise rejected with: the [ApolloError] built by
    the normaliser, or whatever the transport raised. *)
Inductive Failure : Type :=
| Normalized (errors : ApolloError)
| Raised (error : JValue).

(** Outcome of evaluating an expression that may throw, and of awaiting a
    promise that may reject. *)
Inductive Completion (A : Type) : Type :=
| Normal (value : A)
| Throw (error : Failure).
Arguments Normal {A} value.
Arguments Throw {A} error.

Module Auth.

(** Modelled from the spec: the token store of [./auth] is not among the
    sources.  Specification 4.1: the token lives in process memory,
    mirrored to durable storage. *)
Record TokenStore : Type := {
  memory : JValue;
  durable : JValue
}.

(** [get]: the current token, falling back to durable storage when
    process memory is uninitialised. *)
Definition get (store : TokenStore) : JValue :=
  if nullish (memory store) then durable store else memory store.

(** [set]: stores the token in process memory and durable storage. *)
Definition set (token : JValue) (_ : TokenStore) : TokenStore :=
  {| memory := token; durable := token |}.

(** [clear]: removes the token from both. *)
Definition clear (_ : TokenStore) : TokenStore :=
  {| memory := JNull; durable := JNull |}.

End Auth.

(** Sign-in variables, [{ email, password }]. *)
Record Credentials : Type := {
  email : string;
  password : string
}.

(** Callbacks of the caller, in the order they are invoked. *)
Inductive Call : Type :=
| OnUpdate (data : JValue)
| OnError (error : Failure)
| OnComplete
| UserUpdate (result : RawResult).

(** Everything the dispatch layer can touch besides its arguments. *)
Record World : Type := {
  tokens : Auth.TokenStore;
  (** credentials handed to [navigator.credentials.store] *)
  storedCredentials : list Credentials;
  (** variables currently set on the watched observable *)
  observedVariables : JValue;
  (** caller callbacks invoked so far, oldest first *)
  calls : list Call
}.

(** State passing over [World]. *)
Definition M (A : Type) : Type := World -> A * World.

Definition ret {A : Type} (a : A) : M A := fun w => (a, w).

Definition bind {A B : Type} (m : M A) (k : A -> M B) : M B :=
  fun w => let (a, w') := m w in k a w'.

Declare Scope effect_scope.
Delimit Scope effect_scope with effect.
Notation "x <- m ;; k" := (bind m (fun x => k))
  (at level 61, m at next level, right associativity) : effect_scope.
Notation "m ;; k" := (bind m (fun _ => k))
  (at level 61, right associativity) : effect_scope.
Open Scope effect_scope.

Definition when (b : bool) (m : M unit) : M unit :=
  if b then m else ret tt.

Definition invoke (c : Call) : M unit :=
  fun w => (tt, {| tokens := tokens w;
                   storedCredentials := storedCredentials w;
                   observedVariables := observedVariables w;
                   calls := calls w ++ [c] |}).

Definition setAuthToken (token : JValue) : M unit :=
  fun w => (tt, {| tokens := Auth.set token (tokens w);
                   storedCredentials := storedCredentials w;
                   observedVariables := observedVariables w;
                   calls := calls w |}).

Definition getAuthToken : M JValue :=
  fun w => (Auth.get (tokens w), w).

(** [navigator.credentials.store(new PasswordCredential({ id, password }))] *)
Definition credentialsStore (c : Credentials) : M unit :=
  fun w => (tt, {| tokens := tokens w;
                   storedCredentials := storedCredentials w ++ [c];
                   observedVariables := observedVariables w;
                   calls := calls w |}).

(** [observable.setVariables(variables)], as far as [currentResult] and
    [refetch] depend on it. *)
Definition setVariables (variables : JValue) : M unit :=
  fun w => (tt, {| tokens := tokens w;
                   storedCredentials := storedCredentials w;
                   observedVariables := variables;
                   calls := calls w |}).

Definition isLoggedIn : M bool :=
  token <- getAuthToken ;; ret (truthy token).

(* ===================================================================== *)
(** * Promises *)
(* ===================================================================== *)

(** A promise settles once: [resolve] and [reject] do nothing on a promise
    that is already settled. *)
Inductive PromiseState : Type :=
| Pending
| Fulfilled (value : JValue)
| Rejected (reason : Failure).

Definition resolve (value : JValue) (p : PromiseState) : PromiseState :=
  match p with
  | Pending => Fulfilled value
  | settled => settled
  end.

Definition reject (reason : Failure) (p : PromiseState) : PromiseState :=
  match p with
  | Pending => Rejected reason
  | settled => settled
  end.

(** The object literal [{ data: value }]. *)
Definition dataObject (value : JValue) : JValue := JObj [("data", value)].

(** [firePromise]: the executor runs on a pending promise.  After
    [reject(errorHandledData.errors)] control falls through to
    [resolve({ data: errorHandledData.data })], which then finds the promise
    settled. *)
Definition firePromise (promise : M (Completion RawResult)) (mapFn : MapFn)
  : M PromiseState :=
  awaited <- promise ;;
  match awaited with
  | Normal result =>
      let errorHandledData :=
        handleDataErrors mapFn (resultData result) (resultErrors result) in
      let p :=
        match outcomeErrors errorHandledData with
        | Some errors => reject (Normalized errors) Pending
        | None => Pending
        end in
      ret (resolve (dataObject (outcomeData errorHandledData)) p)
  | Throw error => ret (reject error Pending)
  end.

(** [fireQuery]: [query(this.client, { ...options, variables })] handed to
    [firePromise]. *)
Definition fireQuery {V O : Type} (query : V -> O -> M (Completion RawResult))
    (mapFn : MapFn) (variables : V) (options : O) : M PromiseState :=
  firePromise (query variables options) mapFn.

(* ===================================================================== *)
(** * Sign-in *)
(* ===================================================================== *)

(** Options of a mutation call as the client reads them: the [update]
    hook run on the mutation result. *)
Record MutationOptions : Type := {
  update : option (RawResult -> M unit)
}.

(** Options the caller of [signIn] may pass: whether an [update] hook of
    the caller's own is supplied.  Its invocation is recorded in [calls]. *)
Record SignInOptions : Type := {
  userUpdate : bool
}.

(** The runtime around [signIn]. *)
Record Environment : Type := {
  (** [window.PasswordCredential] is available *)
  passwordCredential : bool;
  (** the transport pipeline on the sign-in mutation: the raw result for
      the given variables, or the failure it raises *)
  transport : option Credentials -> Completion RawResult
}.

(** [graphQLResultHasError(result)] of the client: the result carries an
    [errors] list with at least one entry. *)
Definition graphQLResultHasError (result : RawResult) : bool :=
  match resultErrors result with
  | Some (_ :: _) => true
  | _ => false
  end.

(** Modelled from the spec: [MUTATIONS.TokenAuth] of [./mutations] is not
    among the sources; it hands the operation to the client's [mutate].
    Specification 6, transport pipeline contract: the operation is sent
    with its variables and a raw result comes back, unless the transport
    fails.  The [update] hook of the options is the business of the client
    (apollo-client 2.6, an external library): it runs [update] on the
    result before the promise of the mutation settles, and only on a result
    that carries no error ([graphQLResultHasError] is false). *)
Definition TokenAuth (env : Environment) (variables : option Credentials)
    (options : MutationOptions) : M (Completion RawResult) :=
  match transport env variables with
  | Normal result =>
      match update options with
      | Some hook => when (negb (graphQLResultHasError result)) (hook result)
      | None => ret tt
      end ;;
      ret (Normal result)
  | Throw error => ret (Throw error)
  end.

(** The [update] hook [signIn] installs on the mutation. *)
Definition signInUpdate (env : Environment) (variables : option Credentials)
    (options : option SignInOptions) (data : RawResult) : M unit :=
  let handledData :=
    handleDataErrors (prop "tokenCreate") (resultData data) (resultErrors data) in
  when (negb (isSome (outcomeErrors handledData)) && truthy (outcomeData handledData))
    (setAuthToken (prop "token" (outcomeData handledData)) ;;
     match variables with
     | Some v => when (passwordCredential env) (credentialsStore v)
     | None => ret tt
     end) ;;
  match options with
  | Some o => when (userUpdate o) (invoke (UserUpdate data))
  | None => ret tt
  end.

(** [signIn]: awaits [fireQuery(MUTATIONS.TokenAuth, data => data!.tokenCreate)]
    inside [try]; resolves with the awaited value, rejects with what the
    await threw. *)
Definition signIn (env : Environment) (variables : option Credentials)
    (options : option SignInOptions) : M PromiseState :=
  awaited <- fireQuery (TokenAuth env) (prop "tokenCreate") variables
               {| update := Some (signInUpdate env variables options) |} ;;
  match awaited with
  | Fulfilled data => ret (resolve data Pending)
  | Rejected e => ret (reject e Pending)
  | Pending => ret Pending
  end.

(* ===================================================================== *)
(** * Watched queries *)
(* ===================================================================== *)

(** The callbacks of the options handed to a watched query: which ones the
    caller supplied.  [onComplete] and [onError] are optional; [onUpdate]
    is required by its type and still guarded in the subscriber. *)
Record WatchOptions : Type := {
  onComplete : bool;
  onError : bool;
  onUpdate : bool
}.

(** What a subscription delivers: a result, or the failure of the stream. *)
Inductive Emission : Type :=
| Next (result : RawResult)
| Failed (error : Failure).

(** The [ObservableQuery] the client returns for a watched operation, as an
    external collaborator (specification 6): the stream of raw results it
    delivers to a subscriber over the subscription's lifetime, the cached
    result it has for given variables, what a network refetch with given
    variables comes back with, and what [setOptions] comes back with. *)
Record ObservableQuery : Type := {
  emissions : list Emission;
  cached : JValue -> RawResult;
  network : JValue -> Completion RawResult;
  reconfigured : Completion RawResult
}.

(** [observable.currentResult()] *)
Definition currentResult (observable : ObservableQuery) : M RawResult :=
  fun w => (cached observable (observedVariables w), w).

(** [observable.refetch(variables)]: with variables given they replace the
    current ones, then the network is asked. *)
Definition observableRefetch (observable : ObservableQuery) (variables : JValue)
  : M (Completion RawResult) :=
  when (negb (nullish variables)) (setVariables variables) ;;
  current <- (fun w => (observedVariables w, w)) ;;
  ret (network observable current).

(** First argument of [observable.subscribe]: the handler of a result. *)
Definition onResult (mapFn : MapFn) (options : WatchOptions) (result : RawResult)
  : M unit :=
  let errorHandledData :=
    handleDataErrors mapFn (resultData result) (resultErrors result) in
  when (onUpdate options)
    match outcomeErrors errorHandledData with
    | Some errors => when (onError options) (invoke (OnError (Normalized errors)))
    | None =>
        invoke (OnUpdate (outcomeData errorHandledData)) ;;
        when (onComplete options) (invoke OnComplete)
    end.

(** Second argument of [observable.subscribe]: the handler of a failure. *)
Definition onFailure (options : WatchOptions) (error : Failure) : M unit :=
  when (onError options) (invoke (OnError error)).

(** [observable.subscribe(next, error)] over what the observable delivers;
    a failure ends the stream. *)
Fixpoint subscribe (next : RawResult -> M unit) (error : Failure -> M unit)
    (stream : list Emission) : M unit :=
  match stream with
  | [] => ret tt
  | Next result :: later => next result ;; subscribe next error later
  | Failed e :: _ => error e
  end.

(** The [refetch] of the handle.  [onUpdate] is called unguarded here:
    the handle is modelled for options of the declared type, in which
    [onUpdate] is required.  (On a handle created without [onUpdate] the
    call at this point would raise instead of being recorded.) *)
Definition refetch (observable : ObservableQuery) (mapFn : MapFn)
    (variables : JValue) : M PromiseState :=
  when (truthy variables)
    (setVariables variables ;;
     cachedResult <- currentResult observable ;;
     let errorHandledData :=
       handleDataErrors mapFn (resultData cachedResult) None in
     when (truthy (outcomeData errorHandledData))
       (invoke (OnUpdate (outcomeData errorHandledData)))) ;;
  firePromise (observableRefetch observable variables) mapFn.

(** The [setOptions] of the handle. *)
Definition setOptions (observable : ObservableQuery) (mapFn : MapFn)
  : M PromiseState :=
  firePromise (ret (reconfigured observable)) mapFn.

Record Handle : Type := {
  handleRefetch : JValue -> M PromiseState;
  handleSetOptions : M PromiseState
}.

(** [watchQuery(query, mapFn)(variables, options)]: [query] builds the
    observable from the variables; the subscription runs over everything
    the observable delivers. *)
Definition watchQuery (query : JValue -> ObservableQuery) (mapFn : MapFn)
    (variables : JValue) (options : WatchOptions) : M Handle :=
  let observable := query variables in
  subscribe (onResult mapFn options) (onFailure options) (emissions observable) ;;
  ret {| handleRefetch := refetch observable mapFn;
         handleSetOptions := setOptions observable mapFn |}.

(** Counting the invocations of a callback in a call log. *)
Definition isOnComplete (c : Call) : bool :=
  match c with OnComplete => true | _ => false end.

Definition isOnUpdate (c : Call) : bool :=
  match c with OnUpdate _ => true | _ => false end.

Definition isOnError (c : Call) : bool :=
  match c with OnError _ => true | _ => false end.

Definition countCalls (f : Call -> bool) (log : list Call) : nat :=
  length (filter f log).

(** A client process that has just started: no token, nothing stored, no
    callback invoked yet. *)
Definition initialWorld : World :=
  {| tokens := {| Auth.memory := JNull; Auth.durable := JNull |};
     storedCredentials := [];
     observedVariables := JUndefined;
     calls := [] |}.

(* ===================================================================== *)
(** * Payloads, runtimes and call logs used in the statements *)
(* ===================================================================== *)

(** The payload is not empty, in the specification's words: the root data
    value is non-null and at least one direct child field is non-null. *)
Definition dataNotEmpty (data : JValue) : Prop :=
  nullish data = false /\
  exists child, In child (children data) /\ nullish child = false.

(** The payload [{tokenCreate: {token, errors}}] of the sign-in mutation. *)
Definition tokenCreatePayload (token : JValue) (errors : list JValue) : JValue :=
  JObj [("tokenCreate", JObj [("token", token); ("errors", JArr errors)])].

(** The domain error [{field: "password", message: "Invalid credentials"}]. *)
Definition invalidCredentials : JValue :=
  JObj [("field", JStr "password"); ("message", JStr "Invalid credentials")].

(** A product payload [{product: {id}}]. *)
Definition productPayload (id : string) : JValue :=
  JObj [("product", JObj [("id", JStr id)])].

(** A raw result without transport errors. *)
Definition plain (data : JValue) : RawResult :=
  {| resultData := data; resultErrors := None |}.

(** A runtime whose transport answers the sign-in mutation with the given
    raw result. *)
Definition answering (credentialManager : bool) (result : RawResult) : Environment :=
  {| passwordCredential := credentialManager;
     transport := fun _ => Normal result |}.

(** A client process that already holds a token. *)
Definition signedInWorld (token : string) : World :=
  {| tokens := {| Auth.memory := JStr token; Auth.durable := JStr token |};
     storedCredentials := [];
     observedVariables := JUndefined;
     calls := [] |}.

(** An observable that delivers the given stream. *)
Definition delivering (stream : list Emission) : ObservableQuery :=
  {| emissions := stream;
     cached := fun _ => plain JNull;
     network := fun _ => Throw (Raised (JStr "offline"));
     reconfigured := Throw (Raised (JStr "offline")) |}.

Definition allCallbacks : WatchOptions :=
  {| onComplete := true; onError := true; onUpdate := true |}.

(** The world after the callbacks [added] were invoked. *)
Definition logged (added : list Call) (w : World) : World :=
  {| tokens := tokens w;
     storedCredentials := storedCredentials w;
     observedVariables := observedVariables w;
     calls := calls w ++ added |}.

(** The callbacks one result triggers. *)
Definition delivered (mapFn : MapFn) (options : WatchOptions) (result : RawResult)
  : list Call :=
  calls (snd (onResult mapFn options result initialWorld)).

(** The callbacks a whole stream triggers. *)
Definition streamCalls (mapFn : MapFn) (options : WatchOptions)
    (stream : list Emission) : list Call :=
  calls (snd (subscribe (onResult mapFn options) (onFailure options) stream
                initialWorld)).


(* ===================================================================== *)
(** * Auth listeners *)
(* ===================================================================== *)

(** The window around the client process, as far as [attachAuthListener]
    uses it: the handlers registered for the ["auth"] event, in
    registration order.  A handler is a function object, told apart from
    the others by its identity; beside it stands the callback its closure
    holds.  [allocated] counts the function objects created so far, and
    [notified] records the callback invocations with their argument. *)
Record Window : Type := {
  process : World;
  authHandlers : list (nat * nat);
  allocated : nat;
  notified : list (nat * bool)
}.

Definition isHandler (handler : nat) (entry : nat * nat) : bool :=
  Nat.eqb (fst entry) handler.

(** [addEventListener("auth", handler)]: a handler that is already
    registered is not registered twice. *)
Definition addEventListener (handler callback : nat) (win : Window) : Window :=
  if existsb (isHandler handler) (authHandlers win) then win
  else {| process := process win;
          authHandlers := authHandlers win ++ [(handler, callback)];
          allocated := allocated win;
          notified := notified win |}.

(** [removeEventListener("auth", handler)] *)
Definition removeEventListener (handler : nat) (win : Window) : Window :=
  {| process := process win;
     authHandlers := filter (fun entry => negb (isHandler handler entry))
                            (authHandlers win);
     allocated := allocated win;
     notified := notified win |}.

(** [attachAuthListener(callback)]: a fresh [eventHandler] closure is
    created and registered.  The function returned, which removes that very
    handler, is given by the identity of the handler it holds; running it
    is [removeEventListener] on that identity. *)
Definition attachAuthListener (callback : nat) (win : Window) : nat * Window :=
  let eventHandler := allocated win in
  (eventHandler,
   addEventListener eventHandler callback
     {| process := process win;
        authHandlers := authHandlers win;
        allocated := S (allocated win);
        notified := notified win |}).

(** The ["auth"] event is dispatched: every registered [eventHandler] runs
    [callback(this.isLoggedIn())], in registration order. *)
Definition dispatchAuth (win : Window) : Window :=
  {| process := process win;
     authHandlers := authHandlers win;
     allocated := allocated win;
     notified := notified win ++
                 map (fun entry => (snd entry, fst (isLoggedIn (process win))))
                     (authHandlers win) |}.

(** The client process moves on to another state. *)
Definition withProcess (w : World) (win : Window) : Window :=
  {| process := w;
     authHandlers := authHandlers win;
     allocated := allocated win;
     notified := notified win |}.

(** Every registered handler is a function object created earlier. *)
Definition handlersAllocated (win : Window) : Prop :=
  Forall (fun entry => fst entry < allocated win) (authHandlers win).

(** A window in which nothing was registered yet. *)
Definition freshWindow (w : World) : Window :=
  {| process := w; authHandlers := []; allocated := 0; notified := [] |}.

(* ===================================================================== *)
(** * Reading call logs and streams *)
(* ===================================================================== *)



(** The failure a stream ends with, if it ends with one. *)
Fixpoint streamFailure (stream : list Emission) : option Failure :=
  match stream with
  | [] => None
  | Next _ :: later => streamFailure later
  | Failed e :: _ => Some e
  end.

(** What the caller's [update] hook adds to the call log of [signIn]. *)
Definition userUpdateCalls (options : option SignInOptions) (result : RawResult)
  : list Call :=
  match options with
  | Some o => if userUpdate o then [UserUpdate result] else []
  | None => []
  end.

(** A query or mutation whose transport answer is fixed. *)
Definition answered (V O : Type) (answer : Completion RawResult)
  : V -> O -> M (Completion RawResult) :=
  fun _ _ => ret answer.

(* ===================================================================== *)
(** * The dispatch layer over any implementation of [./utils] *)
(* ===================================================================== *)

(** What [src/index.ts] imports from [./utils], as an interface.  The
    module is not among the sources; what [handleDataErrors] and its
    callers do with the answers of the helpers can be stated for every
    implementation of them. *)
Record UtilsModule : Type := {
  utilsGetErrorsFromData : JValue -> JValue;
  utilsIsDataEmpty : JValue -> bool;
  utilsGetMappedData : MapFn -> JValue -> JValue
}.

Module Parametric.
Section WithUtils.

Variable utils : UtilsModule.

(** The [errors] constant of [handleDataErrors]. *)
Definition constructedErrors (data : JValue)
    (apolloErrors : option (list GraphQLError)) : option ApolloError :=
  let userInputErrors := utilsGetErrorsFromData utils data in
  if isSome apolloErrors || truthy userInputErrors
  then Some {| extraInfo := userInputErrors; graphQLErrors := apolloErrors |}
  else None.

Definition handleDataErrors (mapFn : MapFn) (data : JValue)
    (apolloErrors : option (list GraphQLError)) : Outcome :=
  match constructedErrors data apolloErrors with
  | Some errors =>
      if utilsIsDataEmpty utils data then WithErrors errors
      else WithData (utilsGetMappedData utils mapFn data)
  | None => WithData (utilsGetMappedData utils mapFn data)
  end.

Definition firePromise (promise : M (Completion RawResult)) (mapFn : MapFn)
  : M PromiseState :=
  awaited <- promise ;;
  match awaited with
  | Normal result =>
      let errorHandledData :=
        handleDataErrors mapFn (resultData result) (resultErrors result) in
      let p :=
        match outcomeErrors errorHandledData with
        | Some errors => reject (Normalized errors) Pending
        | None => Pending
        end in
      ret (resolve (dataObject (outcomeData errorHandledData)) p)
  | Throw error => ret (reject error Pending)
  end.

Definition fireQuery {V O : Type} (query : V -> O -> M (Completion RawResult))
    (mapFn : MapFn) (variables : V) (options : O) : M PromiseState :=
  firePromise (query variables options) mapFn.

Definition signInUpdate (env : Environment) (variables : option Credentials)
    (options : option SignInOptions) (data : RawResult) : M unit :=
  let handledData :=
    handleDataErrors (prop "tokenCreate") (resultData data) (resultErrors data) in
  when (negb (isSome (outcomeErrors handledData)) && truthy (outcomeData handledData))
    (setAuthToken (prop "token" (outcomeData handledData)) ;;
     match variables with
     | Some v => when (passwordCredential env) (credentialsStore v)
     | None => ret tt
     end) ;;
  match options with
  | Some o => when (userUpdate o) (invoke (UserUpdate data))
  | None => ret tt
  end.

Definition signIn (env : Environment) (variables : option Credentials)
    (options : option SignInOptions) : M PromiseState :=
  awaited <- fireQuery (TokenAuth env) (prop "tokenCreate") variables
               {| update := Some (signInUpdate env variables options) |} ;;
  match awaited with
  | Fulfilled data => ret (resolve data Pending)
  | Rejected e => ret (reject e Pending)
  | Pending => ret Pending
  end.

End WithUtils.
End Parametric.

Module Wrappers.

(** A direct child field resolves to null: it is null, or it is a result
    wrapper in which every field other than [errors] is null. *)
Definition resolvesToNull (child : JValue) : bool :=
  match child with
  | JUndefined | JNull => true
  | JObj fields =>
      forallb (fun field => String.eqb (fst field) "errors" || nullish (snd field))
              fields
  | _ => false
  end.

(** Modelled from the spec: [isDataEmpty] of [./utils] is not among the
    sources, and the specification describes it twice.  This is the reading
    of section 3 (with domain errors and the relevant data node null or
    absent the outcome is the error), of 4.3 step 3 (the payload's
    meaningful data fields are all null or absent; the direct child fields
    resolve to null) and of scenario 8.7: the data is empty when the root is
    null or every direct child field resolves to null, a result wrapper that
    holds nothing but its [errors] counting as null. *)
Definition isDataEmpty (data : JValue) : bool :=
  nullish data || forallb resolvesToNull (children data).

End Wrappers.

(** The helpers as [Utils] models them: emptiness read to the letter of
    4.3 step 3. *)
Definition literalUtils : UtilsModule :=
  {| utilsGetErrorsFromData := Utils.getErrorsFromData;
     utilsIsDataEmpty := Utils.isDataEmpty;
     utilsGetMappedData := Utils.getMappedData |}.

(** The helpers with emptiness read through result wrappers. *)
Definition wrapperUtils : UtilsModule :=
  {| utilsGetErrorsFromData := Utils.getErrorsFromData;
     utilsIsDataEmpty := Wrappers.isDataEmpty;
     utilsGetMappedData := Utils.getMappedData |}.

(* ===================================================================== *)
(** * The life of a subscription *)
(* ===================================================================== *)






(* ===================================================================== *)
(** * Properties of the helpers *)
(* ===================================================================== *)

Lemma truthy_not_nullish (v : JValue) : truthy v = true -> nullish v = false.
Proof. destruct v; simpl; intro H; try reflexivity; discriminate H. Qed.

Lemma nullish_no_errors (v : JValue) :
  nullish v = true -> getErrorsFromData v = JNull.
Proof. destruct v; simpl; intro H; try reflexivity; discriminate H. Qed.

Lemma nullish_not_array (v : JValue) :
  nullish v = true -> nonEmptyArray v = false.
Proof. destruct v; simpl; intro H; try reflexivity; discriminate H. Qed.

(** A payload whose fields are all null holds no domain-error list. *)
Lemma null_fields_no_errors (fields : list (string * JValue)) :
  forallb nullish (map snd fields) = true ->
  getErrorsFromData (JObj fields) = JNull.
Proof.
  induction fields as [| [key value] rest IH]; intro Hall.
  - reflexivity.
  - simpl in Hall. apply andb_true_iff in Hall as [Hv Hrest].
    specialize (IH Hrest).
    simpl. rewrite (nullish_not_array _ Hv), andb_false_r.
    rewrite (nullish_no_errors _ Hv). simpl. exact IH.
Qed.

(** Under the modelled helpers, empty data never carries domain errors. *)
Lemma empty_data_no_errors (data : JValue) :
  isDataEmpty data = true -> getErrorsFromData data = JNull.
Proof.
  destruct data; intro H; try reflexivity.
  apply null_fields_no_errors. exact H.
Qed.

Lemma errors_found_data_not_empty (data : JValue) :
  domainErrorsFound data -> isDataEmpty data = false.
Proof.
  unfold domainErrorsFound. intro Hfound.
  destruct (isDataEmpty data) eqn:He; [| reflexivity].
  rewrite (empty_data_no_errors _ He) in Hfound. discriminate Hfound.
Qed.

Lemma allChildrenNull_empty (data : JValue) :
  data = JNull \/ allChildrenNull data -> isDataEmpty data = true.
Proof.
  intros [-> | [fields [-> Hall]]]; [reflexivity |].
  unfold isDataEmpty. simpl.
  induction Hall as [| [key value] rest Hv _ IH]; [reflexivity |].
  simpl in *. rewrite Hv. exact IH.
Qed.

(** Without a transport-error argument the normaliser always projects:
    an error object is then only built from domain errors, and those are
    never found in empty data. *)
Lemma handleDataErrors_no_transport (mapFn : MapFn) (data : JValue) :
  handleDataErrors mapFn data None = WithData (mapFn data).
Proof.
  unfold handleDataErrors, constructedErrors, getMappedData. simpl.
  destruct (truthy (getErrorsFromData data)) eqn:Hfound; [| reflexivity].
  rewrite (errors_found_data_not_empty data Hfound). reflexivity.
Qed.

Lemma handleDataErrors_not_empty (mapFn : MapFn) (data : JValue)
    (apolloErrors : option (list GraphQLError)) :
  isDataEmpty data = false ->
  handleDataErrors mapFn data apolloErrors = WithData (mapFn data).
Proof.
  intro Hne. unfold handleDataErrors, getMappedData. rewrite Hne.
  destruct (constructedErrors data apolloErrors); reflexivity.
Qed.

Lemma handleDataErrors_present_empty (mapFn : MapFn) (data : JValue)
    (transportErrors : list GraphQLError) :
  isDataEmpty data = true ->
  handleDataErrors mapFn data (Some transportErrors) =
  WithErrors {| extraInfo := getErrorsFromData data;
                graphQLErrors := Some transportErrors |}.
Proof.
  intro He. unfold handleDataErrors, constructedErrors. simpl.
  rewrite He. reflexivity.
Qed.

(* ===================================================================== *)
(** * The normaliser *)
(* ===================================================================== *)

(** Data that is empty to the letter of the specification is empty
    through result wrappers as well. *)
Lemma literal_empty_wrapper_empty (data : JValue) :
  Utils.isDataEmpty data = true -> Wrappers.isDataEmpty data = true.
Proof.
  unfold Utils.isDataEmpty, Wrappers.isDataEmpty.
  destruct (nullish data); [reflexivity |]. cbn [orb].
  induction (children data) as [| child rest IH]; [reflexivity |].
  cbn. intro H. apply andb_true_iff in H as [Hchild Hrest].
  rewrite (IH Hrest), andb_true_r.
  destruct child; cbn in Hchild; try discriminate Hchild; reflexivity.
Qed.

(** Both readings of [isDataEmpty] hold a payload empty when it is null or
    every direct child field of it is null. *)
Lemma null_children_empty (data : JValue) :
  data = JNull \/ allChildrenNull data ->
  utilsIsDataEmpty literalUtils data = true
  /\ utilsIsDataEmpty wrapperUtils data = true.
Proof.
  intro H. apply allChildrenNull_empty in H.
  split; [exact H | apply literal_empty_wrapper_empty; exact H].
Qed.

(** The normaliser over [literalUtils] is the normaliser of the sections
    above. *)
Lemma handleDataErrors_literal (mapFn : MapFn) (data : JValue)
    (apolloErrors : option (list GraphQLError)) :
  Parametric.handleDataErrors literalUtils mapFn data apolloErrors =
  handleDataErrors mapFn data apolloErrors.
Proof. reflexivity. Qed.

Lemma signIn_literal (env : Environment) (variables : option Credentials)
    (options : option SignInOptions) :
  Parametric.signIn literalUtils env variables options =
  signIn env variables options.
Proof. reflexivity. Qed.

(** C1, normaliser empty-data property.  Whatever the helpers of [./utils]
    are: when the data payload is empty ([isDataEmpty] holds; for data that
    is null or whose direct child fields are all null see
    [null_children_empty]), and the transport-error list is non-empty or a
    domain-error list is found in the data ([getErrorsFromData] returns a
    truthy value), [handleDataErrors] returns the [{ errors }] outcome,
    whose error object holds the domain errors found as [extraInfo] and the
    transport errors as [graphQLErrors], and never a [{ data }] outcome. *)
Theorem handleDataErrors_empty_data_errors (utils : UtilsModule)
    (mapFn : MapFn) (data : JValue) (apolloErrors : option (list GraphQLError)) :
  utilsIsDataEmpty utils data = true ->
  transportErrorsNonEmpty apolloErrors
  \/ truthy (utilsGetErrorsFromData utils data) = true ->
  Parametric.handleDataErrors utils mapFn data apolloErrors =
    WithErrors {| extraInfo := utilsGetErrorsFromData utils data;
                  graphQLErrors := apolloErrors |}
  /\ forall result,
       Parametric.handleDataErrors utils mapFn data apolloErrors <> WithData result.
Proof.
  intros Hempty Herr.
  assert (Hout : Parametric.handleDataErrors utils mapFn data apolloErrors =
                 WithErrors {| extraInfo := utilsGetErrorsFromData utils data;
                               graphQLErrors := apolloErrors |}).
  { unfold Parametric.handleDataErrors, Parametric.constructedErrors.
    rewrite Hempty.
    destruct Herr as [[e [rest ->]] | Hfound].
    - reflexivity.
    - rewrite Hfound, orb_true_r. reflexivity. }
  split; [exact Hout |].
  intros result Hdata. rewrite Hout in Hdata. discriminate Hdata.
Qed.

(** The two branches of C1 at concrete inputs: domain errors alone, found
    in a sign-in answer that holds nothing but errors, and transport errors
    alone, next to a payload whose only field is null. *)
Lemma handleDataErrors_empty_data_errors_witness :
  Parametric.handleDataErrors wrapperUtils (prop "tokenCreate")
    (JObj [("tokenCreate", JObj [("token", JNull);
                                 ("errors", JArr [JObj [("field", JStr "password");
                                                        ("message", JStr "Invalid credentials")]])])])
    None
  = WithErrors {| extraInfo := JArr [JObj [("field", JStr "password");
                                           ("message", JStr "Invalid credentials")]];
                  graphQLErrors := None |}
  /\ Parametric.handleDataErrors literalUtils (prop "me") (JObj [("me", JNull)])
       (Some [ {| message := "Internal server error" |} ])
     = WithErrors {| extraInfo := JNull;
                     graphQLErrors := Some [ {| message := "Internal server error" |} ] |}.
Proof.
  split.
  - apply (handleDataErrors_empty_data_errors wrapperUtils (prop "tokenCreate")
      (JObj [("tokenCreate", JObj [("token", JNull);
                                   ("errors", JArr [JObj [("field", JStr "password");
                                                          ("message", JStr "Invalid credentials")]])])])
      None).
    + reflexivity.
    + right. reflexivity.
  - apply (handleDataErrors_empty_data_errors literalUtils (prop "me")
             (JObj [("me", JNull)])
             (Some [ {| message := "Internal server error" |} ])).
    + reflexivity.
    + left. exists {| message := "Internal server error" |}, []. reflexivity.
Defined.

(** C2, as amended.  With no embedded domain errors and the transport-error
    argument absent, or present but empty next to a data payload that is
    not empty, [handleDataErrors] returns [{ data: projected }] with
    [projected = mapFn(data)]. *)
Theorem handleDataErrors_pass_through (mapFn : MapFn) (data : JValue)
    (apolloErrors : option (list GraphQLError)) :
  noDomainErrors data ->
  apolloErrors = None \/ (apolloErrors = Some [] /\ isDataEmpty data = false) ->
  handleDataErrors mapFn data apolloErrors = WithData (mapFn data).
Proof.
  intros _ [-> | [-> Hne]].
  - apply handleDataErrors_no_transport.
  - apply handleDataErrors_not_empty. exact Hne.
Qed.

Lemma handleDataErrors_pass_through_witness :
  handleDataErrors (prop "me") (JObj [("me", JObj [("email", JStr "a@b.com")])]) None
  = WithData (JObj [("email", JStr "a@b.com")]).
Proof.
  apply (handleDataErrors_pass_through (prop "me")
           (JObj [("me", JObj [("email", JStr "a@b.com")])])).
  - reflexivity.
  - left. reflexivity.
Defined.

(** C2 as stated fails: the raw result [{ data: {me: null}, errors: [] }]
    has no transport errors and no domain errors, and is still normalised
    to [{ errors }]. *)
Lemma handleDataErrors_pass_through_empty_list :
  noTransportErrors (Some []) /\ noDomainErrors (JObj [("me", JNull)]) /\
  handleDataErrors (prop "me") (JObj [("me", JNull)]) (Some []) =
    WithErrors {| extraInfo := JNull; graphQLErrors := Some [] |} /\
  handleDataErrors (prop "me") (JObj [("me", JNull)]) (Some []) <>
    WithData (prop "me" (JObj [("me", JNull)])).
Proof.
  split; [right; reflexivity |].
  split; [reflexivity |].
  split; [reflexivity |].
  intro H. discriminate H.
Qed.

Lemma dataNotEmpty_isDataEmpty (data : JValue) :
  dataNotEmpty data -> isDataEmpty data = false.
Proof.
  intros [Hroot [child [Hin Hchild]]].
  unfold isDataEmpty. rewrite Hroot. simpl.
  destruct (forallb nullish (children data)) eqn:Hall; [| reflexivity].
  rewrite forallb_forall in Hall. rewrite (Hall child Hin) in Hchild.
  discriminate Hchild.
Qed.

(** C3, partial success.  When embedded domain errors are found and the
    data payload is not empty, [handleDataErrors] returns the data outcome
    [{ data: projected }], whatever the transport errors: an error object
    holding the domain errors was built, yet the outcome has no [errors]
    field, so a caller looking at the outcome does not see them. *)
Theorem handleDataErrors_domain_errors_with_data (mapFn : MapFn) (data : JValue)
    (apolloErrors : option (list GraphQLError)) :
  domainErrorsFound data ->
  dataNotEmpty data ->
  handleDataErrors mapFn data apolloErrors = WithData (mapFn data)
  /\ outcomeErrors (handleDataErrors mapFn data apolloErrors) = None
  /\ constructedErrors data apolloErrors =
       Some {| extraInfo := getErrorsFromData data; graphQLErrors := apolloErrors |}.
Proof.
  intros Hfound Hne.
  apply dataNotEmpty_isDataEmpty in Hne.
  rewrite (handleDataErrors_not_empty mapFn data apolloErrors Hne).
  repeat split.
  unfold constructedErrors. unfold domainErrorsFound in Hfound.
  rewrite Hfound, orb_true_r. reflexivity.
Qed.

Lemma handleDataErrors_domain_errors_with_data_witness :
  handleDataErrors (prop "checkoutEmailUpdate")
    (JObj [("checkoutEmailUpdate",
            JObj [("checkout", JObj [("id", JStr "Q2hlY2tvdXQ6MQ==")]);
                  ("errors", JArr [JObj [("field", JStr "email");
                                         ("message", JStr "Enter a valid email address.")]])])])
    None
  = WithData (JObj [("checkout", JObj [("id", JStr "Q2hlY2tvdXQ6MQ==")]);
                    ("errors", JArr [JObj [("field", JStr "email");
                                           ("message", JStr "Enter a valid email address.")]])]).
Proof.
  apply (handleDataErrors_domain_errors_with_data (prop "checkoutEmailUpdate")
    (JObj [("checkoutEmailUpdate",
            JObj [("checkout", JObj [("id", JStr "Q2hlY2tvdXQ6MQ==")]);
                  ("errors", JArr [JObj [("field", JStr "email");
                                         ("message", JStr "Enter a valid email address.")]])])])
    None).
  - reflexivity.
  - split; [reflexivity |].
    eexists. split; [left; reflexivity | reflexivity].
Defined.

(** C10, present but empty transport-error list.  Whatever the data and
    the projection, a transport-error argument that is present and empty
    still makes [handleDataErrors] build an error object; when the data
    payload is empty as well, the outcome is [{ errors }], with no
    transport error and no domain error in it. *)
Theorem handleDataErrors_empty_error_list (mapFn : MapFn) (data : JValue) :
  constructedErrors data (Some []) =
    Some {| extraInfo := getErrorsFromData data; graphQLErrors := Some [] |}
  /\ (isDataEmpty data = true ->
      handleDataErrors mapFn data (Some []) =
        WithErrors {| extraInfo := JNull; graphQLErrors := Some [] |}).
Proof.
  split; [reflexivity |].
  intro He.
  rewrite (handleDataErrors_present_empty mapFn data [] He).
  rewrite (empty_data_no_errors data He). reflexivity.
Qed.

Lemma handleDataErrors_empty_error_list_witness :
  handleDataErrors (prop "product") JNull (Some []) =
    WithErrors {| extraInfo := JNull; graphQLErrors := Some [] |}.
Proof.
  apply (handleDataErrors_empty_error_list (prop "product") JNull).
  reflexivity.
Defined.

(* ===================================================================== *)
(** * Promises *)
(* ===================================================================== *)

(** How [firePromise] settles, by cases on what the factory did. *)
Lemma firePromise_run (promise : M (Completion RawResult)) (mapFn : MapFn)
    (w w' : World) (awaited : Completion RawResult) :
  promise w = (awaited, w') ->
  firePromise promise mapFn w =
    (match awaited with
     | Throw error => Rejected error
     | Normal result =>
         match handleDataErrors mapFn (resultData result) (resultErrors result) with
         | WithErrors errors => Rejected (Normalized errors)
         | WithData projected => Fulfilled (dataObject projected)
         end
     end, w').
Proof.
  intro Hrun. unfold firePromise, bind. rewrite Hrun.
  destruct awaited as [result | error]; [| reflexivity].
  destruct (handleDataErrors mapFn (resultData result) (resultErrors result));
    reflexivity.
Qed.

(** C4, [firePromise].  If awaiting the factory throws, the promise is
    rejected with that very exception and the normaliser is not consulted.
    Otherwise the promise is rejected, with the normalised error, exactly
    when the normalised outcome is an error, and fulfilled with
    [{ data: projected }] exactly when the outcome is the data outcome.
    Nothing but the factory touches the world. *)
Theorem firePromise_settles (promise : M (Completion RawResult)) (mapFn : MapFn)
    (w w' : World) (awaited : Completion RawResult) :
  promise w = (awaited, w') ->
  snd (firePromise promise mapFn w) = w'
  /\ (forall error, awaited = Throw error ->
        fst (firePromise promise mapFn w) = Rejected error)
  /\ (forall result, awaited = Normal result ->
        (forall errors,
           handleDataErrors mapFn (resultData result) (resultErrors result)
             = WithErrors errors
           <-> fst (firePromise promise mapFn w) = Rejected (Normalized errors))
        /\ (forall projected,
           handleDataErrors mapFn (resultData result) (resultErrors result)
             = WithData projected
           <-> fst (firePromise promise mapFn w) = Fulfilled (dataObject projected))).
Proof.
  intro Hrun. rewrite (firePromise_run promise mapFn w w' awaited Hrun). simpl.
  split; [reflexivity |].
  split.
  - intros error ->. reflexivity.
  - intros result ->.
    destruct (handleDataErrors mapFn (resultData result) (resultErrors result))
      as [errors' | projected']; split; intros x; split; intro H;
      try discriminate H; injection H as ->; reflexivity.
Qed.

Lemma firePromise_settles_witness :
  fst (firePromise (ret (Throw (Raised (JStr "Network error")))) (prop "me")
         initialWorld)
  = Rejected (Raised (JStr "Network error")).
Proof.
  apply (firePromise_settles (ret (Throw (Raised (JStr "Network error"))))
           (prop "me") initialWorld initialWorld
           (Throw (Raised (JStr "Network error")))).
  - reflexivity.
  - reflexivity.
Defined.

(* ===================================================================== *)
(** * Sign-in scenarios *)
(* ===================================================================== *)

Example getErrorsFromData_sign_in_failure :
  getErrorsFromData (tokenCreatePayload JNull [invalidCredentials])
  = JArr [invalidCredentials].
Proof. reflexivity. Qed.

Example isDataEmpty_sign_in_failure :
  isDataEmpty (tokenCreatePayload JNull [invalidCredentials]) = false.
Proof. reflexivity. Qed.

Lemma tokenCreatePayload_normalized (token : JValue) (errors : list JValue)
    (apolloErrors : option (list GraphQLError)) :
  handleDataErrors (prop "tokenCreate") (tokenCreatePayload token errors) apolloErrors
  = WithData (JObj [("token", token); ("errors", JArr errors)]).
Proof.
  rewrite handleDataErrors_not_empty; reflexivity.
Qed.

(** What [signIn] does when the transport answers with a [tokenCreate]
    payload and no transport error: the token of the payload goes to the
    token store and the promise is fulfilled with the projected payload. *)
Lemma signIn_tokenCreate_run (env : Environment) (variables : option Credentials)
    (options : option SignInOptions) (w : World)
    (token : JValue) (errors : list JValue)
    (apolloErrors : option (list GraphQLError)) :
  noTransportErrors apolloErrors ->
  transport env variables =
    Normal {| resultData := tokenCreatePayload token errors;
              resultErrors := apolloErrors |} ->
  fst (signIn env variables options w) =
    Fulfilled (dataObject (JObj [("token", token); ("errors", JArr errors)]))
  /\ tokens (snd (signIn env variables options w)) =
       {| Auth.memory := token; Auth.durable := token |}.
Proof.
  intros Hnone Hanswer.
  unfold signIn, fireQuery, firePromise, TokenAuth, bind. rewrite Hanswer.
  cbn [update]. unfold signInUpdate.
  destruct Hnone as [-> | ->]; cbn [graphQLResultHasError resultData resultErrors negb when];
    unfold bind; rewrite !tokenCreatePayload_normalized; cbn;
    destruct variables as [v |], options as [[[|]] |], (passwordCredential env);
    cbn; rewrite ?tokenCreatePayload_normalized; split; reflexivity.
Qed.

Example isDataEmpty_sign_in_failure_wrappers :
  Wrappers.isDataEmpty (tokenCreatePayload JNull [invalidCredentials]) = true.
Proof. reflexivity. Qed.



(** C6, sign-in success.  When the mutation returns
    [{tokenCreate: {token: "T123", errors: []}}] with no transport errors,
    the token store afterwards holds ["T123"], and the promise returned by
    [signIn] is fulfilled with [{ data }], the data being the [tokenCreate]
    object of that payload. *)
Theorem signIn_success (env : Environment) (variables : option Credentials)
    (options : option SignInOptions) (w : World)
    (apolloErrors : option (list GraphQLError)) :
  noTransportErrors apolloErrors ->
  transport env variables =
    Normal {| resultData := tokenCreatePayload (JStr "T123") [];
              resultErrors := apolloErrors |} ->
  Auth.get (tokens (snd (signIn env variables options w))) = JStr "T123"
  /\ fst (signIn env variables options w) =
       Fulfilled (dataObject (prop "tokenCreate"
                                (tokenCreatePayload (JStr "T123") []))).
Proof.
  intros Hnone Hanswer.
  destruct (signIn_tokenCreate_run env variables options w (JStr "T123") []
              apolloErrors Hnone Hanswer) as [Hp Ht].
  rewrite Ht, Hp. split; reflexivity.
Qed.

Lemma signIn_success_witness :
  Auth.get (tokens (snd (signIn
     (answering true {| resultData := tokenCreatePayload (JStr "T123") [];
                        resultErrors := None |})
     (Some {| email := "a@b.com"; password := "x" |}) None initialWorld)))
  = JStr "T123".
Proof.
  apply (signIn_success
           (answering true {| resultData := tokenCreatePayload (JStr "T123") [];
                              resultErrors := None |})
           (Some {| email := "a@b.com"; password := "x" |}) None initialWorld None).
  - left. reflexivity.
  - reflexivity.
Defined.

(* ===================================================================== *)
(** * Watched queries *)
(* ===================================================================== *)

Lemma logged_nil (w : World) : logged [] w = w.
Proof. destruct w. unfold logged. cbn. rewrite app_nil_r. reflexivity. Qed.

Lemma logged_app (a b : list Call) (w : World) :
  logged b (logged a w) = logged (a ++ b) w.
Proof. unfold logged. cbn. rewrite app_assoc. reflexivity. Qed.

Lemma invoke_run (c : Call) (w : World) : invoke c w = (tt, logged [c] w).
Proof. reflexivity. Qed.

Lemma onResult_run (mapFn : MapFn) (options : WatchOptions) (result : RawResult)
    (w : World) :
  onResult mapFn options result w = (tt, logged (delivered mapFn options result) w).
Proof.
  unfold delivered, onResult, when, bind.
  destruct (onUpdate options); [| cbn; rewrite logged_nil; reflexivity].
  destruct (handleDataErrors mapFn (resultData result) (resultErrors result))
    as [errors | projected]; cbn [outcomeErrors outcomeData].
  - destruct (onError options); cbn; [reflexivity | rewrite logged_nil; reflexivity].
  - rewrite !invoke_run.
    destruct (onComplete options); cbn [snd calls logged initialWorld app].
    + rewrite invoke_run, logged_app. reflexivity.
    + reflexivity.
Qed.

Lemma onFailure_run (options : WatchOptions) (error : Failure) (w : World) :
  onFailure options error w =
  (tt, logged (if onError options then [OnError error] else []) w).
Proof.
  unfold onFailure, when. destruct (onError options);
    [reflexivity | cbn; rewrite logged_nil; reflexivity].
Qed.

Lemma subscribe_run (mapFn : MapFn) (options : WatchOptions)
    (stream : list Emission) (w : World) :
  subscribe (onResult mapFn options) (onFailure options) stream w =
  (tt, logged (streamCalls mapFn options stream) w).
Proof.
  revert w. unfold streamCalls.
  induction stream as [| [result | error] later IH]; intro w.
  - cbn. rewrite logged_nil. reflexivity.
  - cbn [subscribe]. unfold bind.
    rewrite (onResult_run mapFn options result w).
    rewrite (onResult_run mapFn options result initialWorld).
    rewrite (IH (logged _ w)), (IH (logged _ initialWorld)).
    cbn [snd]. rewrite !logged_app. reflexivity.
  - cbn [subscribe]. rewrite !onFailure_run. reflexivity.
Qed.

Lemma streamCalls_next (mapFn : MapFn) (options : WatchOptions)
    (result : RawResult) (later : list Emission) :
  streamCalls mapFn options (Next result :: later) =
  delivered mapFn options result ++ streamCalls mapFn options later.
Proof.
  unfold streamCalls at 1. cbn [subscribe]. unfold bind.
  rewrite onResult_run, subscribe_run. reflexivity.
Qed.

Lemma streamCalls_failed (mapFn : MapFn) (options : WatchOptions)
    (error : Failure) (later : list Emission) :
  streamCalls mapFn options (Failed error :: later) =
  if onError options then [OnError error] else [].
Proof.
  unfold streamCalls. cbn [subscribe]. rewrite onFailure_run. reflexivity.
Qed.

Lemma delivered_cases (mapFn : MapFn) (options : WatchOptions) (result : RawResult) :
  onUpdate options = true ->
  delivered mapFn options result =
  match handleDataErrors mapFn (resultData result) (resultErrors result) with
  | WithErrors errors =>
      if onError options then [OnError (Normalized errors)] else []
  | WithData projected =>
      OnUpdate projected :: if onComplete options then [OnComplete] else []
  end.
Proof.
  intro Hupdate. unfold delivered, onResult, when, bind. rewrite Hupdate.
  destruct (handleDataErrors mapFn (resultData result) (resultErrors result));
    cbn [outcomeErrors outcomeData].
  - destruct (onError options); reflexivity.
  - destruct (onComplete options); reflexivity.
Qed.




(** C8, as amended.  With [onUpdate] and [onError] both supplied, every
    result delivered on the subscription invokes exactly one of the two:
    [onUpdate] with the projected data when the normalised outcome is the
    data outcome, [onError] with the normalised error when it is the error
    outcome. *)
Theorem onResult_exactly_one_callback (mapFn : MapFn) (options : WatchOptions)
    (result : RawResult) (w : World) :
  onUpdate options = true ->
  onError options = true ->
  exists added,
    calls (snd (onResult mapFn options result w)) = calls w ++ added
    /\ countCalls isOnUpdate added + countCalls isOnError added = 1
    /\ match handleDataErrors mapFn (resultData result) (resultErrors result) with
       | WithData projected =>
           In (OnUpdate projected) added /\ countCalls isOnError added = 0
       | WithErrors errors =>
           added = [OnError (Normalized errors)]
       end.
Proof.
  intros Hupdate Herror.
  exists (delivered mapFn options result).
  rewrite onResult_run. split; [reflexivity |].
  rewrite (delivered_cases mapFn options result Hupdate), Herror.
  destruct (handleDataErrors mapFn (resultData result) (resultErrors result)).
  - split; reflexivity.
  - destruct (onComplete options); cbn; repeat split; auto.
Qed.

Lemma onResult_exactly_one_callback_witness :
  exists added,
    calls (snd (onResult (prop "product") allCallbacks
                  {| resultData := JNull;
                     resultErrors := Some [ {| message := "Not found" |} ] |}
                  initialWorld))
      = calls initialWorld ++ added
    /\ countCalls isOnUpdate added + countCalls isOnError added = 1
    /\ added = [OnError (Normalized
                  {| extraInfo := JNull;
                     graphQLErrors := Some [ {| message := "Not found" |} ] |})].
Proof.
  apply (onResult_exactly_one_callback (prop "product") allCallbacks
           {| resultData := JNull;
              resultErrors := Some [ {| message := "Not found" |} ] |}
           initialWorld).
  - reflexivity.
  - reflexivity.
Defined.

(** C8 as stated fails.  [onError] is optional: on a subscription whose
    options supply [onUpdate] and [onComplete] only, a result that
    normalises to an error invokes neither [onUpdate] nor [onError]. *)
Lemma onResult_no_callback_without_onError :
  let options := {| onComplete := true; onError := false; onUpdate := true |} in
  let result := {| resultData := JObj [("product", JNull)];
                   resultErrors := Some [ {| message := "Not found" |} ] |} in
  handleDataErrors (prop "product") (resultData result) (resultErrors result)
    = WithErrors {| extraInfo := JNull;
                    graphQLErrors := Some [ {| message := "Not found" |} ] |}
  /\ calls (snd (onResult (prop "product") options result initialWorld)) = []
  /\ countCalls isOnUpdate
       (calls (snd (onResult (prop "product") options result initialWorld)))
     + countCalls isOnError
       (calls (snd (onResult (prop "product") options result initialWorld)))
     = 0.
Proof.
  cbv zeta. repeat split.
Qed.

(** C9, refetch with variables.  [refetch] called with new variables sets
    them on the observable and, before it returns, hands the cached result
    for those variables to [onUpdate] when there is one (the projection of
    the cached data is truthy), and to no callback otherwise; the promise it
    returns is fulfilled with [{ data }] of the fresh network result for
    those variables, when that result normalises to the data outcome. *)
Theorem refetch_cached_then_network (observable : ObservableQuery)
    (mapFn : MapFn) (variables : JValue) (w : World)
    (result : RawResult) (fresh : JValue) :
  truthy variables = true ->
  network observable variables = Normal result ->
  handleDataErrors mapFn (resultData result) (resultErrors result)
    = WithData fresh ->
  let projected := mapFn (resultData (cached observable variables)) in
  fst (refetch observable mapFn variables w) = Fulfilled (dataObject fresh)
  /\ calls (snd (refetch observable mapFn variables w)) =
       calls w ++ (if truthy projected then [OnUpdate projected] else [])
  /\ observedVariables (snd (refetch observable mapFn variables w)) = variables.
Proof.
  intros Hvars Hnet Hfresh projected.
  pose proof (truthy_not_nullish variables Hvars) as Hnn.
  unfold refetch, when, bind. rewrite Hvars.
  cbn [setVariables currentResult observedVariables].
  rewrite handleDataErrors_no_transport. cbn [outcomeData].
  fold projected.
  unfold firePromise, observableRefetch, when, bind. rewrite Hnn.
  destruct (truthy projected); cbn; rewrite Hnet, Hfresh; cbn;
    repeat split; rewrite ?app_nil_r; reflexivity.
Qed.

Lemma refetch_cached_then_network_witness :
  let observable :=
    {| emissions := [];
       cached := fun _ => plain (productPayload "cached 42");
       network := fun _ => Normal (plain (productPayload "fresh 42"));
       reconfigured := Throw (Raised (JStr "unused")) |} in
  let run := refetch observable (prop "product") (JObj [("id", JStr "42")])
               initialWorld in
  fst run = Fulfilled (dataObject (JObj [("id", JStr "fresh 42")]))
  /\ calls (snd run) = [OnUpdate (JObj [("id", JStr "cached 42")])]
  /\ observedVariables (snd run) = JObj [("id", JStr "42")].
Proof.
  cbv zeta.
  apply (refetch_cached_then_network
           {| emissions := [];
              cached := fun _ => plain (productPayload "cached 42");
              network := fun _ => Normal (plain (productPayload "fresh 42"));
              reconfigured := Throw (Raised (JStr "unused")) |}
           (prop "product") (JObj [("id", JStr "42")]) initialWorld
           (plain (productPayload "fresh 42")) (JObj [("id", JStr "fresh 42")])).
  - reflexivity.
  - reflexivity.
  - reflexivity.
Defined.

(* ===================================================================== *)
(** * Further properties of the normaliser and the promise wrappers *)
(* ===================================================================== *)

Lemma nullish_falsy (v : JValue) : nullish v = true -> truthy v = false.
Proof. destruct v; cbn; intro H; try reflexivity; discriminate H. Qed.

Lemma handleDataErrors_single_field (key : string) (value : JValue)
    (apolloErrors : option (list GraphQLError)) :
  handleDataErrors (prop key) (JObj [(key, value)]) apolloErrors =
  if nullish value && isSome apolloErrors
  then WithErrors {| extraInfo := JNull; graphQLErrors := apolloErrors |}
  else WithData value.
Proof.
  assert (Hprop : prop key (JObj [(key, value)]) = value).
  { cbn. rewrite String.eqb_refl. reflexivity. }
  destruct (nullish value) eqn:Hv.
  - assert (He : isDataEmpty (JObj [(key, value)]) = true).
    { unfold isDataEmpty. cbn. rewrite Hv. reflexivity. }
    destruct apolloErrors as [transportErrors |]; cbn [andb isSome].
    + rewrite (handleDataErrors_present_empty _ _ transportErrors He).
      rewrite (empty_data_no_errors _ He). reflexivity.
    + rewrite handleDataErrors_no_transport, Hprop. reflexivity.
  - cbn [andb]. rewrite handleDataErrors_not_empty, Hprop; [reflexivity |].
    unfold isDataEmpty. cbn. rewrite Hv. reflexivity.
Qed.

(** X2.  Transport errors are dropped when there is data: if the factory
    comes back with a result whose data is not empty, [firePromise] fulfils
    the promise with [{ data: mapFn(data) }] whatever the transport-error
    list of the result holds. *)
Theorem firePromise_data_wins (promise : M (Completion RawResult)) (mapFn : MapFn)
    (w w' : World) (result : RawResult) :
  promise w = (Normal result, w') ->
  isDataEmpty (resultData result) = false ->
  firePromise promise mapFn w =
    (Fulfilled (dataObject (mapFn (resultData result))), w').
Proof.
  intros Hrun Hne.
  rewrite (firePromise_run promise mapFn w w' (Normal result) Hrun).
  rewrite (handleDataErrors_not_empty mapFn _ _ Hne). reflexivity.
Qed.

Lemma firePromise_data_wins_witness :
  firePromise
    (ret (Normal {| resultData := JObj [("me", JObj [("email", JStr "a@b.com")]);
                                        ("orders", JNull)];
                    resultErrors := Some [ {| message := "Permission denied" |} ] |}))
    (prop "me") initialWorld
  = (Fulfilled (dataObject (JObj [("email", JStr "a@b.com")])), initialWorld).
Proof.
  apply (firePromise_data_wins
    (ret (Normal {| resultData := JObj [("me", JObj [("email", JStr "a@b.com")]);
                                        ("orders", JNull)];
                    resultErrors := Some [ {| message := "Permission denied" |} ] |}))
    (prop "me") initialWorld initialWorld
    {| resultData := JObj [("me", JObj [("email", JStr "a@b.com")]);
                           ("orders", JNull)];
       resultErrors := Some [ {| message := "Permission denied" |} ] |}).
  - reflexivity.
  - reflexivity.
Defined.

(* ===================================================================== *)
(** * Further properties of sign-in *)
(* ===================================================================== *)

(** X4.  When the transport fails on the sign-in mutation, the promise of
    [signIn] is rejected with that failure, and nothing else happens: the
    token store, the credential manager and the call log are as before. *)
Theorem signIn_transport_failure (env : Environment)
    (variables : option Credentials) (options : option SignInOptions)
    (w : World) (error : Failure) :
  transport env variables = Throw error ->
  signIn env variables options w = (Rejected error, w).
Proof.
  intro Hfail.
  unfold signIn, fireQuery, firePromise, TokenAuth, bind. rewrite Hfail.
  reflexivity.
Qed.

Lemma signIn_transport_failure_witness :
  signIn {| passwordCredential := true;
            transport := fun _ => Throw (Raised (JStr "Failed to fetch")) |}
         (Some {| email := "a@b.com"; password := "x" |})
         (Some {| userUpdate := true |}) (signedInWorld "OLD")
  = (Rejected (Raised (JStr "Failed to fetch")), signedInWorld "OLD").
Proof.
  apply (signIn_transport_failure
           {| passwordCredential := true;
              transport := fun _ => Throw (Raised (JStr "Failed to fetch")) |}).
  reflexivity.
Defined.



Lemma signIn_tokenCreate_world (env : Environment) (variables : option Credentials)
    (options : option SignInOptions) (w : World)
    (token : JValue) (errors : list JValue)
    (apolloErrors : option (list GraphQLError)) :
  noTransportErrors apolloErrors ->
  transport env variables =
    Normal {| resultData := tokenCreatePayload token errors;
              resultErrors := apolloErrors |} ->
  snd (signIn env variables options w) =
    {| tokens := {| Auth.memory := token; Auth.durable := token |};
       storedCredentials :=
         storedCredentials w ++
         match variables with
         | Some v => if passwordCredential env then [v] else []
         | None => []
         end;
       observedVariables := observedVariables w;
       calls := calls w ++
                userUpdateCalls options
                  {| resultData := tokenCreatePayload token errors;
                     resultErrors := apolloErrors |} |}.
Proof.
  intros Hnone Hanswer.
  unfold signIn, fireQuery, firePromise, TokenAuth, bind. rewrite Hanswer.
  cbn [update]. unfold signInUpdate.
  destruct Hnone as [-> | ->]; cbn [graphQLResultHasError resultData resultErrors negb when];
    unfold bind; rewrite !tokenCreatePayload_normalized; cbn;
    destruct variables as [v |], options as [[[|]] |], (passwordCredential env);
    cbn; rewrite ?tokenCreatePayload_normalized; cbn; rewrite ?app_nil_r;
    reflexivity.
Qed.

(** X6.  On a successful sign-in answer, a [tokenCreate] object with a
    token string and no errors, returned without transport errors, [signIn]
    hands the credentials to the credential manager exactly when the
    manager is available and variables were given, and runs the caller's
    [update] hook once if one is supplied. *)
Theorem signIn_credentials_and_hook (env : Environment)
    (variables : option Credentials) (options : option SignInOptions)
    (w : World) (token : string) (apolloErrors : option (list GraphQLError)) :
  noTransportErrors apolloErrors ->
  transport env variables =
    Normal {| resultData := tokenCreatePayload (JStr token) [];
              resultErrors := apolloErrors |} ->
  storedCredentials (snd (signIn env variables options w)) =
    storedCredentials w ++
    match variables with
    | Some v => if passwordCredential env then [v] else []
    | None => []
    end
  /\ calls (snd (signIn env variables options w)) =
       calls w ++ userUpdateCalls options
                    {| resultData := tokenCreatePayload (JStr token) [];
                       resultErrors := apolloErrors |}.
Proof.
  intros Hnone Hanswer.
  rewrite (signIn_tokenCreate_world env variables options w (JStr token) []
             apolloErrors Hnone Hanswer).
  split; reflexivity.
Qed.

Lemma signIn_credentials_and_hook_witness :
  storedCredentials (snd (signIn
     (answering true {| resultData := tokenCreatePayload (JStr "T123") [];
                        resultErrors := None |})
     (Some {| email := "a@b.com"; password := "x" |})
     (Some {| userUpdate := true |}) initialWorld))
  = [ {| email := "a@b.com"; password := "x" |} ].
Proof.
  apply (signIn_credentials_and_hook
     (answering true {| resultData := tokenCreatePayload (JStr "T123") [];
                        resultErrors := None |})
     (Some {| email := "a@b.com"; password := "x" |})
     (Some {| userUpdate := true |}) initialWorld "T123" None).
  - left. reflexivity.
  - reflexivity.
Defined.

(** X7.  [isLoggedIn] after [signIn]: once the sign-in mutation answered,
    without transport errors, with a [tokenCreate] object holding a token
    string and no errors, [isLoggedIn()] is true exactly when that string
    is not empty, whatever the token store held before. *)
Theorem isLoggedIn_after_signIn (env : Environment)
    (variables : option Credentials) (options : option SignInOptions)
    (w : World) (token : string) (apolloErrors : option (list GraphQLError)) :
  noTransportErrors apolloErrors ->
  transport env variables =
    Normal {| resultData := tokenCreatePayload (JStr token) [];
              resultErrors := apolloErrors |} ->
  fst (isLoggedIn (snd (signIn env variables options w)))
  = negb (String.eqb token EmptyString).
Proof.
  intros Hnone Hanswer.
  rewrite (signIn_tokenCreate_world env variables options w (JStr token) []
             apolloErrors Hnone Hanswer).
  reflexivity.
Qed.

Lemma isLoggedIn_after_signIn_witness :
  fst (isLoggedIn (snd (signIn
     (answering false {| resultData := tokenCreatePayload (JStr "T123") [];
                         resultErrors := None |})
     (Some {| email := "a@b.com"; password := "x" |}) None initialWorld)))
  = true.
Proof.
  apply (isLoggedIn_after_signIn
     (answering false {| resultData := tokenCreatePayload (JStr "T123") [];
                         resultErrors := None |})
     (Some {| email := "a@b.com"; password := "x" |}) None initialWorld
     "T123" None).
  - left. reflexivity.
  - reflexivity.
Defined.

(** X8.  A null [tokenCreate] without transport errors: when the sign-in
    mutation answers [{tokenCreate: null}] and no transport-error list
    comes with it, the promise of [signIn] is fulfilled with
    [{ data: null }] rather than rejected; the token store and the
    credential manager are not touched. *)
Theorem signIn_null_tokenCreate (env : Environment)
    (variables : option Credentials) (options : option SignInOptions)
    (w : World) (value : JValue) :
  nullish value = true ->
  transport env variables =
    Normal {| resultData := JObj [("tokenCreate", value)];
              resultErrors := None |} ->
  fst (signIn env variables options w) = Fulfilled (dataObject value)
  /\ tokens (snd (signIn env variables options w)) = tokens w
  /\ storedCredentials (snd (signIn env variables options w)) = storedCredentials w.
Proof.
  intros Hnull Hanswer.
  unfold signIn, fireQuery, firePromise, TokenAuth, bind. rewrite Hanswer.
  cbn [update]. unfold bind, signInUpdate. cbn [resultData resultErrors].
  rewrite !handleDataErrors_single_field, andb_false_r.
  cbn [outcomeErrors outcomeData isSome negb andb].
  rewrite (nullish_falsy value Hnull).
  destruct options as [[[|]] |]; cbn;
    rewrite ?handleDataErrors_single_field, ?andb_false_r; cbn;
    repeat split.
Qed.

Lemma signIn_null_tokenCreate_witness :
  fst (signIn (answering true
                 {| resultData := JObj [("tokenCreate", JNull)];
                    resultErrors := None |})
              (Some {| email := "a@b.com"; password := "x" |}) None
              (signedInWorld "OLD"))
  = Fulfilled (dataObject JNull).
Proof.
  apply (signIn_null_tokenCreate
           (answering true
              {| resultData := JObj [("tokenCreate", JNull)];
                 resultErrors := None |})
           (Some {| email := "a@b.com"; password := "x" |}) None
           (signedInWorld "OLD") JNull).
  - reflexivity.
  - reflexivity.
Defined.

(* ===================================================================== *)
(** * Further properties of watched queries *)
(* ===================================================================== *)

Lemma watchQuery_world (query : JValue -> ObservableQuery) (mapFn : MapFn)
    (variables : JValue) (options : WatchOptions) (w : World) :
  snd (watchQuery query mapFn variables options w) =
  logged (streamCalls mapFn options (emissions (query variables))) w.
Proof.
  unfold watchQuery, bind. rewrite subscribe_run. reflexivity.
Qed.



Lemma delivered_without_onUpdate (mapFn : MapFn) (options : WatchOptions)
    (result : RawResult) :
  onUpdate options = false -> delivered mapFn options result = [].
Proof.
  intro Hno. unfold delivered, onResult, when. rewrite Hno. reflexivity.
Qed.

(** X10.  Without [onUpdate] results are dropped silently: when the
    options carry no [onUpdate], no result invokes any callback, not even
    [onError] for a result that normalises to an error.  The only call the
    subscription can make is [onError] on the failure of the stream
    itself. *)
Theorem watchQuery_without_onUpdate (query : JValue -> ObservableQuery)
    (mapFn : MapFn) (variables : JValue) (options : WatchOptions) (w : World) :
  onUpdate options = false ->
  calls (snd (watchQuery query mapFn variables options w)) =
  calls w ++
  match streamFailure (emissions (query variables)) with
  | Some error => if onError options then [OnError error] else []
  | None => []
  end.
Proof.
  intro Hno. rewrite watchQuery_world. cbn [logged calls]. f_equal.
  induction (emissions (query variables)) as [| [result | error] later IH].
  - reflexivity.
  - rewrite streamCalls_next, (delivered_without_onUpdate mapFn options result Hno).
    exact IH.
  - apply streamCalls_failed.
Qed.

Lemma watchQuery_without_onUpdate_witness :
  calls (snd (watchQuery
                (fun _ => delivering
                   [Next {| resultData := JNull;
                            resultErrors := Some [ {| message := "Timeout" |} ] |};
                    Next (plain (productPayload "Y"))])
                (prop "product") (JObj [("slug", JStr "shoe")])
                {| onComplete := true; onError := true; onUpdate := false |}
                initialWorld))
  = [].
Proof.
  apply (watchQuery_without_onUpdate
           (fun _ => delivering
              [Next {| resultData := JNull;
                       resultErrors := Some [ {| message := "Timeout" |} ] |};
               Next (plain (productPayload "Y"))])
           (prop "product") (JObj [("slug", JStr "shoe")])
           {| onComplete := true; onError := true; onUpdate := false |}
           initialWorld).
  reflexivity.
Defined.

(** X11.  [refetch] without variables: called with no variables
    ([undefined] or [null]), [refetch] invokes no callback and leaves the
    variables of the observable alone; the promise it returns is the
    normalised network result for the variables the observable already
    has. *)
Theorem refetch_without_variables (observable : ObservableQuery) (mapFn : MapFn)
    (variables : JValue) (w : World) :
  nullish variables = true ->
  snd (refetch observable mapFn variables w) = w
  /\ fst (refetch observable mapFn variables w) =
     fst (firePromise (ret (network observable (observedVariables w))) mapFn w).
Proof.
  intro Hnone.
  unfold refetch, firePromise, observableRefetch, when, bind, ret.
  rewrite (nullish_falsy variables Hnone), Hnone. cbn.
  destruct (network observable (observedVariables w)) as [result | error];
    split; reflexivity.
Qed.

Lemma refetch_without_variables_witness :
  snd (refetch (delivering []) (prop "product") JUndefined initialWorld)
  = initialWorld.
Proof.
  apply (refetch_without_variables (delivering []) (prop "product") JUndefined
           initialWorld).
  reflexivity.
Defined.

Lemma refetch_calls (observable : ObservableQuery) (mapFn : MapFn)
    (variables : JValue) (w : World) :
  calls (snd (refetch observable mapFn variables w)) =
  calls w ++
  if truthy variables && truthy (mapFn (resultData (cached observable variables)))
  then [OnUpdate (mapFn (resultData (cached observable variables)))]
  else [].
Proof.
  unfold refetch, firePromise, observableRefetch, when, bind, ret.
  destruct (truthy variables) eqn:Hvars; cbn.
  - rewrite handleDataErrors_no_transport. cbn [outcomeData].
    rewrite (truthy_not_nullish variables Hvars). cbn.
    destruct (truthy (mapFn (resultData (cached observable variables)))); cbn;
      destruct (network observable variables); cbn; rewrite ?app_nil_r;
      reflexivity.
  - destruct (nullish variables); cbn;
      [destruct (network observable (observedVariables w))
      | destruct (network observable variables)];
      cbn; rewrite app_nil_r; reflexivity.
Qed.

(** X12.  A failing refetch is reported through the promise only: when the
    network refetch for the new variables fails, the promise returned by
    [refetch] is rejected with that failure; [onError] is not invoked, and
    the cached result for those variables has still been handed to
    [onUpdate] when its projection is truthy. *)
Theorem refetch_network_failure (observable : ObservableQuery) (mapFn : MapFn)
    (variables : JValue) (w : World) (error : Failure) :
  truthy variables = true ->
  network observable variables = Throw error ->
  fst (refetch observable mapFn variables w) = Rejected error
  /\ calls (snd (refetch observable mapFn variables w)) =
       calls w ++
       if truthy (mapFn (resultData (cached observable variables)))
       then [OnUpdate (mapFn (resultData (cached observable variables)))]
       else [].
Proof.
  intros Hvars Hfail. split.
  - unfold refetch, firePromise, observableRefetch, when, bind, ret.
    rewrite Hvars, (truthy_not_nullish variables Hvars). cbn.
    rewrite handleDataErrors_no_transport. cbn [outcomeData].
    destruct (truthy (mapFn (resultData (cached observable variables)))); cbn;
      rewrite Hfail; reflexivity.
  - rewrite refetch_calls, Hvars. reflexivity.
Qed.

Lemma refetch_network_failure_witness :
  fst (refetch
         {| emissions := [];
            cached := fun _ => plain (productPayload "cached 42");
            network := fun _ => Throw (Raised (JStr "Failed to fetch"));
            reconfigured := Throw (Raised (JStr "unused")) |}
         (prop "product") (JObj [("id", JStr "42")]) initialWorld)
  = Rejected (Raised (JStr "Failed to fetch")).
Proof.
  apply (refetch_network_failure
         {| emissions := [];
            cached := fun _ => plain (productPayload "cached 42");
            network := fun _ => Throw (Raised (JStr "Failed to fetch"));
            reconfigured := Throw (Raised (JStr "unused")) |}
         (prop "product") (JObj [("id", JStr "42")]) initialWorld
         (Raised (JStr "Failed to fetch"))).
  - reflexivity.
  - reflexivity.
Defined.

(** X13.  [refetch] never calls [onError] or [onComplete] itself: whatever
    the variables, the cache and the network answer, the only callback it
    may invoke is [onUpdate], and that at most once. *)
Theorem refetch_calls_onUpdate_only (observable : ObservableQuery)
    (mapFn : MapFn) (variables : JValue) (w : World) :
  exists added,
    calls (snd (refetch observable mapFn variables w)) = calls w ++ added
    /\ countCalls isOnError added = 0
    /\ countCalls isOnComplete added = 0
    /\ length added <= 1.
Proof.
  eexists. split; [apply refetch_calls |].
  destruct (truthy variables &&
            truthy (mapFn (resultData (cached observable variables))));
    cbn; repeat split; lia.
Qed.

(* ===================================================================== *)
(** * The life of a subscription *)
(* ===================================================================== *)













(* ===================================================================== *)
(** * Auth listeners *)
(* ===================================================================== *)

Lemma fresh_handler_unregistered (handlers : list (nat * nat)) (bound : nat) :
  Forall (fun entry => fst entry < bound) handlers ->
  existsb (isHandler bound) handlers = false.
Proof.
  induction 1 as [| entry rest Hlt _ IH]; [reflexivity |].
  cbn. rewrite IH, orb_false_r. unfold isHandler.
  apply Nat.eqb_neq. lia.
Qed.

Lemma fresh_handler_filter (handlers : list (nat * nat)) (bound : nat) :
  Forall (fun entry => fst entry < bound) handlers ->
  filter (fun entry => negb (isHandler bound entry)) handlers = handlers.
Proof.
  induction 1 as [| entry rest Hlt _ IH]; [reflexivity |].
  cbn. rewrite IH. unfold isHandler.
  replace (Nat.eqb (fst entry) bound) with false; [reflexivity |].
  symmetry. apply Nat.eqb_neq. lia.
Qed.

Lemma attachAuthListener_run (callback : nat) (win : Window) :
  handlersAllocated win ->
  attachAuthListener callback win =
  (allocated win,
   {| process := process win;
      authHandlers := authHandlers win ++ [(allocated win, callback)];
      allocated := S (allocated win);
      notified := notified win |}).
Proof.
  intro Hwf. unfold attachAuthListener, addEventListener. cbn.
  rewrite (fresh_handler_unregistered _ _ Hwf). reflexivity.
Qed.

(** Attaching a listener keeps the handlers among the allocated function
    objects. *)
Lemma attachAuthListener_allocated (callback : nat) (win : Window) :
  handlersAllocated win ->
  handlersAllocated (snd (attachAuthListener callback win)).
Proof.
  intro Hwf. rewrite (attachAuthListener_run callback win Hwf).
  unfold handlersAllocated in *. cbn.
  apply Forall_app. split.
  - eapply Forall_impl; [| exact Hwf]. cbn. intros entry Hlt. lia.
  - constructor; [cbn; lia | constructor].
Qed.

(** X14.  Attach, then unregister: running the function returned by
    [attachAuthListener] removes the handler this call registered and no
    other, so the registered handlers are exactly those from before the
    call, and a later ["auth"] event notifies exactly whom it would have
    notified without the call. *)
Theorem attachAuthListener_unregister (callback : nat) (win : Window) :
  handlersAllocated win ->
  authHandlers (removeEventListener (fst (attachAuthListener callback win))
                  (snd (attachAuthListener callback win)))
    = authHandlers win
  /\ notified (dispatchAuth
                 (removeEventListener (fst (attachAuthListener callback win))
                    (snd (attachAuthListener callback win))))
     = notified (dispatchAuth win).
Proof.
  intro Hwf. rewrite (attachAuthListener_run callback win Hwf).
  unfold dispatchAuth, removeEventListener. cbn.
  rewrite filter_app, (fresh_handler_filter _ _ Hwf). cbn.
  unfold isHandler. cbn. rewrite Nat.eqb_refl. cbn.
  rewrite app_nil_r. split; reflexivity.
Qed.

Lemma attachAuthListener_unregister_witness :
  authHandlers
    (removeEventListener
       (fst (attachAuthListener 7 (snd (attachAuthListener 5 (freshWindow initialWorld)))))
       (snd (attachAuthListener 7 (snd (attachAuthListener 5 (freshWindow initialWorld))))))
  = authHandlers (snd (attachAuthListener 5 (freshWindow initialWorld))).
Proof.
  apply (attachAuthListener_unregister 7
           (snd (attachAuthListener 5 (freshWindow initialWorld)))).
  repeat constructor.
Defined.

(** X15.  The callback is told the login state of the moment the event
    fires, not of the moment it was attached: after [attachAuthListener],
    whatever state the client process has reached when ["auth"] is
    dispatched, the callback is invoked once, after the listeners attached
    before it, with [isLoggedIn()] of that state. *)
Theorem attachAuthListener_notified (callback : nat) (win : Window) (later : World) :
  handlersAllocated win ->
  notified (dispatchAuth
              (withProcess later (snd (attachAuthListener callback win))))
  = notified (dispatchAuth (withProcess later win))
    ++ [(callback, truthy (Auth.get (tokens later)))].
Proof.
  intro Hwf. rewrite (attachAuthListener_run callback win Hwf).
  unfold dispatchAuth, withProcess. cbn.
  rewrite map_app, app_assoc. reflexivity.
Qed.

Lemma attachAuthListener_notified_witness :
  notified (dispatchAuth
              (withProcess (signedInWorld "T123")
                 (snd (attachAuthListener 5 (freshWindow initialWorld)))))
  = [(5, true)].
Proof.
  apply (attachAuthListener_notified 5 (freshWindow initialWorld)
           (signedInWorld "T123")).
  constructor.
Defined.

(** X16.  Attaching the same callback twice registers two handlers: each
    call creates its own [eventHandler], so the callback is notified twice
    per event, and unregistering the first attachment leaves the second one
    in place. *)
Theorem attachAuthListener_twice (callback : nat) (win : Window) :
  handlersAllocated win ->
  let first := attachAuthListener callback win in
  let second := attachAuthListener callback (snd first) in
  fst first <> fst second
  /\ authHandlers (snd second) =
       authHandlers win ++ [(fst first, callback); (fst second, callback)]
  /\ authHandlers (removeEventListener (fst first) (snd second)) =
       authHandlers win ++ [(fst second, callback)].
Proof.
  intros Hwf first second.
  pose proof (attachAuthListener_allocated callback win Hwf) as Hwf1.
  subst second. rewrite (attachAuthListener_run callback (snd first) Hwf1).
  subst first. rewrite (attachAuthListener_run callback win Hwf). cbn.
  split; [lia |].
  split; [rewrite <- app_assoc; reflexivity |].
  assert (Hne : Nat.eqb (S (allocated win)) (allocated win) = false)
    by (apply Nat.eqb_neq; lia).
  rewrite !filter_app, (fresh_handler_filter _ _ Hwf).
  cbn [filter]. unfold isHandler. cbn [fst].
  rewrite Nat.eqb_refl, Hne. cbn [negb app].
  rewrite app_nil_r. reflexivity.
Qed.

Lemma attachAuthListener_twice_witness :
  authHandlers
    (snd (attachAuthListener 5 (snd (attachAuthListener 5 (freshWindow initialWorld)))))
  = [(0, 5); (1, 5)].
Proof.
  apply (attachAuthListener_twice 5 (freshWindow initialWorld)).
  constructor.
Defined.
